(** * versioduo/range: the proximity-sensor node of a V2 device chain

    A shallow embedding of [range.ino]: the configuration record and its
    JSON import/export ([Device::importConfiguration],
    [Device::exportConfiguration], [Device::exportSettings],
    [Device::exportOutput]), the sensor adapter
    ([ProximitySensor::handleUpdate], [Device::handleSend]) and the packet
    routing of [MIDI::loop], [Link::receivePlug] and [Link::receiveSocket].

    Integers of the firmware ([uint8_t], [uint16_t], [uint32_t]) are [Z]
    with the wrap-around written out; the calls into the hardware and into
    the other devices of the chain are recorded as a trace of [Effect]s. *)

From Stdlib Require Import ZArith List String Bool Lia QArith Qround.
Import ListNotations.
Local Open Scope string_scope.
Local Open Scope list_scope.
Local Open Scope Z_scope.

(** ** Machine integers *)

Definition wrap8 (z : Z) : Z := z mod 256.

Definition is_uint8 (z : Z) : Prop := 0 <= z < 256.
Definition is_uint16 (z : Z) : Prop := 0 <= z < 65536.

(** ** JSON documents

    A [JsonObject] of ArduinoJson is a linked list of members in insertion
    order; a member is looked up by scanning from the front. *)

#[local] Set Warnings "-register-all".

Inductive Json : Type :=
| JNull
| JBool (b : bool)
| JInt (z : Z)
| JReal (q : Q)
| JStr (s : string)
| JArr (items : list Json)
| JObj (members : list (string * Json)).

Definition JsonObject : Type := list (string * Json).

(** [json[key]] read as a value: the first member of that name, the null
    variant when there is none. *)
Fixpoint member (key : string) (o : JsonObject) : Json :=
  match o with
  | [] => JNull
  | (k, v) :: rest => if String.eqb k key then v else member key rest
  end.

Definition isNull (v : Json) : bool :=
  match v with JNull => true | _ => false end.

(** [JsonObject x = json[key]]: the handle is null ([None]) unless the
    value is an object; [if (x)] tests exactly that. *)
Definition as_object (v : Json) : option JsonObject :=
  match v with JObj m => Some m | _ => None end.

(** [json[key] = v]: the first member of that name is overwritten in
    place, a new member is appended otherwise. *)
Fixpoint set_member (key : string) (v : Json) (o : JsonObject) : JsonObject :=
  match o with
  | [] => [(key, v)]
  | (k, w) :: rest =>
      if String.eqb k key then (k, v) :: rest
      else (k, w) :: set_member key v rest
  end.

(** Whether the object has a member of that name. *)
Definition has_member (key : string) (o : JsonObject) : bool :=
  existsb (fun kv => String.eqb (fst kv) key) o.

(** The conversion of a JSON value to [uint8_t] and [uint16_t] is
    ArduinoJson's, not this repository's. The firmware relies on three
    facts only, which are the laws of the interface: the result has the
    C++ type it is assigned to, a missing or null value reads as zero, and
    an integer that fits is read as itself. *)
Class JsonConvert : Type := {
  as_uint8 : Json -> Z;
  as_uint16 : Json -> Z;
  as_uint8_range : forall v, is_uint8 (as_uint8 v);
  as_uint16_range : forall v, is_uint16 (as_uint16 v);
  as_uint8_null : as_uint8 JNull = 0;
  as_uint16_null : as_uint16 JNull = 0;
  as_uint8_int : forall z, is_uint8 z -> as_uint8 (JInt z) = z;
  as_uint16_int : forall z, is_uint16 z -> as_uint16 (JInt z) = z
}.

(** ArduinoJson 6: a number outside the target type, and a value that is
    not a number, read as zero; a real number is truncated. *)
Definition arduino_as_uint (bits : Z) (v : Json) : Z :=
  match v with
  | JInt z => if (0 <=? z) && (z <? 2 ^ bits) then z else 0
  | JReal q =>
      if Qle_bool 0 q && Qle_bool q (inject_Z (2 ^ bits - 1))
      then Qfloor q else 0
  | JBool true => 1
  | _ => 0
  end.

(** The reference conversion satisfies the interface. *)
Definition arduinojson : JsonConvert.
Proof.
  assert (Hrange : forall bits v, 0 < bits ->
                     0 <= arduino_as_uint bits v < 2 ^ bits).
  { intros bits v Hbits.
    assert (Hpow : 1 < 2 ^ bits) by (apply Z.pow_gt_1; lia).
    destruct v as [ | [ | ] | z | q | s | items | members ]; simpl; try lia.
    - destruct (0 <=? z) eqn:Hlo; destruct (z <? 2 ^ bits) eqn:Hhi; simpl; lia.
    - destruct (Qle_bool 0 q) eqn:Hlo; simpl; [ | lia ].
      destruct (Qle_bool q (inject_Z (2 ^ bits - 1))) eqn:Hhi; [ | lia ].
      apply Qle_bool_iff in Hlo. apply Qle_bool_iff in Hhi.
      apply Qfloor_resp_le in Hlo. apply Qfloor_resp_le in Hhi.
      rewrite Qfloor_Z in Hhi. change (Qfloor 0) with 0 in Hlo. lia. }
  assert (Hint : forall bits z, 0 <= z < 2 ^ bits ->
                   arduino_as_uint bits (JInt z) = z).
  { intros bits z [Hlo Hhi]. simpl.
    apply Z.leb_le in Hlo. apply Z.ltb_lt in Hhi.
    now rewrite Hlo, Hhi. }
  refine {| as_uint8 := arduino_as_uint 8; as_uint16 := arduino_as_uint 16 |}.
  - intros v. exact (Hrange 8 v eq_refl).
  - intros v. exact (Hrange 16 v eq_refl).
  - reflexivity.
  - reflexivity.
  - exact (Hint 8).
  - exact (Hint 16).
Defined.

(** ** The configuration record *)

(** Modelled from the spec: [V2VL53LX::Configuration] is declared in the
    sensor library; the distances are whole millimetres, the two filter
    coefficients are opaque to the firmware. *)
Record RangeConfiguration : Type := {
  n_steps : Z;
  min : Z;
  max : Z;
  detect : Z;
  alpha : Q;
  lag : Q
}.

Record Config : Type := {
  channel : Z;
  controller : Z;
  range : RangeConfiguration
}.

(** [V2MIDI::CC::GeneralPurpose1] *)
Definition GeneralPurpose1 : Z := 16.

Definition default_config : Config :=
  {| channel := 0;
     controller := GeneralPurpose1;
     range := {| n_steps := 128; min := 10; max := 500; detect := 600;
                 alpha := 7 # 10; lag := 1 # 125 |} |}.

Definition set_channel (c : Config) (ch : Z) : Config :=
  {| channel := ch; controller := controller c; range := range c |}.

Definition set_controller (c : Config) (n : Z) : Config :=
  {| channel := channel c; controller := n; range := range c |}.

Definition set_range (c : Config) (lo hi lim : Z) : Config :=
  {| channel := channel c;
     controller := controller c;
     range := {| n_steps := n_steps (range c);
                 min := lo; max := hi; detect := lim;
                 alpha := alpha (range c); lag := lag (range c) |} |}.

(** ** Predicates on configurations *)



(** The document [{"range": {"min": lo, "max": hi, "detect": lim}}]. *)
Definition range_document (lo hi lim : Z) : JsonObject :=
  [("range", JObj [("min", JInt lo); ("max", JInt hi); ("detect", JInt lim)])].

(** The bounds and the order of a validated configuration. *)
Definition valid_config (c : Config) : Prop :=
  0 <= channel c <= 15 /\
  0 <= controller c <= 127 /\
  1 <= min (range c) <= 3000 /\
  1 <= max (range c) <= 3000 /\
  1 <= detect (range c) <= 3000 /\
  min (range c) < max (range c) <= detect (range c).

(** ** Device::importConfiguration *)

(** The three local variables of the range block, as the code computes
    them from the raw [uint16_t] readings. *)
Definition range_min (raw : Z) : Z :=
  if (raw =? 0) || (raw >? 3000) then 10 else raw.

Definition range_max (min raw : Z) : Z :=
  if (raw <? min) || (raw >? 3000) then 500 else raw.

Definition range_detect (max raw : Z) : Z :=
  if (raw <? max) || (max >? 3000) then 600 else raw.

Section ImportConfiguration.
Context `{JsonConvert}.

Definition import_channel (json : JsonObject) (c : Config) : Config :=
  match as_object (member "midi" json) with
  | Some json_midi =>
      if negb (isNull (member "channel" json_midi)) then
        let channel := as_uint8 (member "channel" json_midi) in
        if channel <? 1 then set_channel c 0
        else if channel >? 16 then set_channel c 15
        else set_channel c (wrap8 (channel - 1))
      else c
  | None => c
  end.

Definition import_controller (json : JsonObject) (c : Config) : Config :=
  if negb (isNull (member "controller" json)) then
    let c1 := set_controller c (as_uint8 (member "controller" json)) in
    if controller c1 >? 127 then set_controller c1 127 else c1
  else c.

Definition import_range (json : JsonObject) (c : Config) : Config :=
  match as_object (member "range" json) with
  | Some json_range =>
      let min := range_min (as_uint16 (member "min" json_range)) in
      let max := range_max min (as_uint16 (member "max" json_range)) in
      let detect := range_detect max (as_uint16 (member "detect" json_range)) in
      set_range c min max detect
  | None => c
  end.

Definition importConfiguration (json : JsonObject) (c : Config) : Config :=
  import_range json (import_controller json (import_channel json c)).

End ImportConfiguration.

(** ** Device::exportConfiguration *)

(** [json.createNestedObject(key)] followed by the writes through the
    returned handle: the member [key] ends up holding the object built by
    [fill] from an empty one. *)
Definition createNestedObject (key : string) (fill : JsonObject -> JsonObject)
    (o : JsonObject) : JsonObject :=
  set_member key (JObj (fill [])) o.

Definition exportConfiguration (c : Config) (json : JsonObject) : JsonObject :=
  let json := set_member "#midi" (JStr "The MIDI settings") json in
  let json :=
    createNestedObject "midi" (fun json_midi =>
      let json_midi :=
        set_member "#channel"
          (JStr "The channel to send notes and control values to") json_midi in
      set_member "channel" (JInt (channel c + 1)) json_midi) json in
  let json :=
    set_member "#controller" (JStr "The MIDI controller for pressure values") json in
  let json := set_member "controller" (JInt (controller c)) json in
  let json :=
    set_member "#range" (JStr "The proximity sensor's parameters") json in
  createNestedObject "range" (fun json_range =>
    let json_range :=
      set_member "#min"
        (JStr "The minimum measured distance in millimeters, value = 1")
        json_range in
    let json_range := set_member "min" (JInt (min (range c))) json_range in
    let json_range :=
      set_member "#max"
        (JStr "The maximum measured distance in millimeters, value = 127")
        json_range in
    let json_range := set_member "max" (JInt (max (range c))) json_range in
    let json_range :=
      set_member "#detect"
        (JStr "The maximum accepted distance in millimeters, value = 127")
        json_range in
    set_member "detect" (JInt (detect (range c))) json_range) json.

(** ** MIDI packets and the effects of the firmware *)

Inductive Message : Type :=
| ControlChange (channel controller value : Z)
| Raw (bytes : list Z).

(** Modelled from the spec: [V2MIDI::Packet] is declared in the MIDI
    library; it carries a 4-bit port field next to the MIDI message, and
    writing the port keeps the low four bits of the [uint8_t] argument. *)
Record Packet : Type := {
  port : Z;
  message : Message
}.

Definition getPort (p : Packet) : Z := port p.

Definition setPort (p : Packet) (x : Z) : Packet :=
  {| port := Z.land (wrap8 x) 15; message := message p |}.

Definition setControlChange (p : Packet) (channel controller value : Z) : Packet :=
  {| port := port p;
     message := ControlChange (wrap8 channel) (wrap8 controller) (wrap8 value) |}.

Definition empty_packet : Packet := {| port := 0; message := Raw [] |}.

Inductive LinkType : Type := TypeMIDI | TypeOther.

(** Modelled from the spec: [V2Link::Packet] is declared in the link
    library; a typed packet with a one-byte address, whose MIDI content
    [receive] copies into a [V2MIDI::Packet]. *)
Record LinkPacket : Type := {
  ltype : LinkType;
  address : Z;
  midi : Packet
}.

Inductive Source : Type := FromUsb | FromPlug.

Inductive Effect : Type :=
| UsbSend (p : Packet)                 (* Device.usb.midi.send *)
| PlugSend (p : Packet)                (* Plug.send *)
| SocketSend (p : Packet)              (* Socket.send *)
| Dispatch (from : Source) (p : Packet) (* Device.dispatch *)
| LedBrightness (led : Z) (fraction : Q).

(** The mutable objects of the sketch: the configuration, the packet
    buffer [_midi] of each of the three classes, and the state of the USB
    connection as [Device.usb.midi.connected()] reports it. *)
Record State : Type := {
  config : Config;
  range_midi : Packet;
  usb_midi : Packet;
  link_midi : Packet;
  usb_connected : bool
}.

Definition set_range_midi (st : State) (p : Packet) : State :=
  {| config := config st; range_midi := p; usb_midi := usb_midi st;
     link_midi := link_midi st; usb_connected := usb_connected st |}.

Definition set_usb_midi (st : State) (p : Packet) : State :=
  {| config := config st; range_midi := range_midi st; usb_midi := p;
     link_midi := link_midi st; usb_connected := usb_connected st |}.

Definition set_link_midi (st : State) (p : Packet) : State :=
  {| config := config st; range_midi := range_midi st; usb_midi := usb_midi st;
     link_midi := p; usb_connected := usb_connected st |}.

Definition set_usb_connected (st : State) (b : bool) : State :=
  {| config := config st; range_midi := range_midi st; usb_midi := usb_midi st;
     link_midi := link_midi st; usb_connected := b |}.

Definition initial_state : State :=
  {| config := default_config; range_midi := empty_packet;
     usb_midi := empty_packet; link_midi := empty_packet;
     usb_connected := false |}.

(** ** Device::handleSend and ProximitySensor::handleUpdate *)

Definition handleSend (midi : Packet) : bool * list Effect :=
  (true, [UsbSend midi; PlugSend midi]).

(** Modelled from the spec: [Device.send] is the library's entry point
    for outbound events; it hands the packet to the [handleSend] hook. *)
Definition Device_send (midi : Packet) : list Effect :=
  snd (handleSend midi).

Definition handleUpdate (st : State) (step : Z) (fraction distance : Q)
    (count : Z) : State * list Effect :=
  let _midi :=
    setControlChange (range_midi st)
      (channel (config st)) (controller (config st)) step in
  (set_range_midi st _midi, LedBrightness 0 fraction :: Device_send _midi).

(** ** MIDI::loop *)

(** [rx] is what [Device.usb.midi.receive(&_midi)] delivers in this
    cycle: nothing, or a packet written into [_midi]. *)
Definition MIDI_loop (st : State) (rx : option Packet) : State * list Effect :=
  match rx with
  | None => (st, [])
  | Some received =>
      let _midi := received in
      if getPort _midi =? 0 then
        (set_usb_midi st _midi, [Dispatch FromUsb _midi])
      else
        let _midi := setPort _midi (getPort _midi - 1) in
        (set_usb_midi st _midi, [SocketSend _midi])
  end.

(** ** Link::receivePlug and Link::receiveSocket *)

Definition receivePlug (st : State) (packet : LinkPacket) : State * list Effect :=
  match ltype packet with
  | TypeMIDI =>
      let _midi := midi packet in
      (set_link_midi st _midi, [Dispatch FromPlug _midi])
  | TypeOther => (st, [])
  end.

Definition receiveSocket (st : State) (packet : LinkPacket) : State * list Effect :=
  match ltype packet with
  | TypeMIDI =>
      let address := address packet in
      if address =? 15 then (st, [])
      else if usb_connected st then
        let _midi := midi packet in
        let _midi := setPort _midi (address + 1) in
        (set_link_midi st _midi, [UsbSend _midi])
      else (st, [])
  | TypeOther => (st, [])
  end.

(** ** The polling loop as a transition system

    One [Event] is one thing the environment hands to the sketch in a
    cycle; [run] threads the state and collects the trace. *)
Inductive Event : Type :=
| UsbReceive (p : Packet)
| PlugReceive (packet : LinkPacket)
| SocketReceive (packet : LinkPacket)
| SensorUpdate (step : Z) (fraction distance : Q) (count : Z)
| UsbConnection (up : bool).

Definition step (st : State) (e : Event) : State * list Effect :=
  match e with
  | UsbReceive p => MIDI_loop st (Some p)
  | PlugReceive packet => receivePlug st packet
  | SocketReceive packet => receiveSocket st packet
  | SensorUpdate s fraction distance count =>
      handleUpdate st s fraction distance count
  | UsbConnection up => (set_usb_connected st up, [])
  end.

Fixpoint run (st : State) (events : list Event) : State * list Effect :=
  match events with
  | [] => (st, [])
  | e :: rest =>
      let (st1, out1) := step st e in
      let (st2, out2) := run st1 rest in
      (st2, out1 ++ out2)
  end.

Definition usb_sends (out : list Effect) : list Packet :=
  flat_map (fun e => match e with UsbSend p => [p] | _ => [] end) out.

Definition socket_sends (out : list Effect) : list Packet :=
  flat_map (fun e => match e with SocketSend p => [p] | _ => [] end) out.

Definition plug_sends (out : list Effect) : list Packet :=
  flat_map (fun e => match e with PlugSend p => [p] | _ => [] end) out.

(** ** A chain of devices

    Downstream, every device applies the rule of [MIDI::loop] to what the
    previous one sent to its socket; upstream, every device applies
    [receiveSocket] to a link packet whose address is the port the packet
    left the previous device with. *)
Definition connected (dev : State) : Prop := usb_connected dev = true.

Definition hop_down (dev : State) (p : Packet) : option Packet :=
  hd_error (socket_sends (snd (MIDI_loop dev (Some p)))).

Definition hop_up (dev : State) (p : Packet) : option Packet :=
  hd_error (usb_sends (snd (receiveSocket dev
    {| ltype := TypeMIDI; address := getPort p; midi := p |}))).

Fixpoint relay (hop : State -> Packet -> option Packet)
    (devices : list State) (p : Packet) : option Packet :=
  match devices with
  | [] => Some p
  | dev :: rest =>
      match hop dev p with
      | Some q => relay hop rest q
      | None => None
      end
  end.

(** ** Device::exportSettings and Device::exportOutput *)

Definition JsonArray : Type := list Json.

(** [json.createNestedObject()] on an array, followed by the writes
    through the returned handle: one more element at the end. *)
Definition addNestedObject (fill : JsonObject -> JsonObject) (a : JsonArray)
    : JsonArray :=
  a ++ [JObj (fill [])].

(** [json.createNestedArray(key)], followed by the additions through the
    returned handle. *)
Definition createNestedArray (key : string) (fill : JsonArray -> JsonArray)
    (o : JsonObject) : JsonObject :=
  set_member key (JArr (fill [])) o.

Definition exportSettings (json : JsonArray) : JsonArray :=
  addNestedObject (fun json_midi =>
    let json_midi := set_member "type" (JStr "midi") json_midi in
    let json_midi := set_member "channel" (JStr "midi.channel") json_midi in
    createNestedObject "configuration" (fun json_configuration =>
      let json_configuration :=
        set_member "path" (JStr "midi") json_configuration in
      set_member "field" (JStr "channel") json_configuration) json_midi) json.

Definition exportOutput (c : Config) (json : JsonObject) : JsonObject :=
  let json := set_member "channel" (JInt (channel c)) json in
  createNestedArray "controllers" (fun json_controllers =>
    addNestedObject (fun json_controller =>
      let json_controller :=
        set_member "name" (JStr "Proximity") json_controller in
      set_member "number" (JInt (controller c)) json_controller)
      json_controllers) json.

(** ** Configurations the import can leave behind *)

(** The values the validation can store: a clamped channel and
    controller, an accepted [min], an accepted [max] or its replacement
    500, an accepted [detect] or its replacement 600. *)
Definition import_stable (c : Config) : Prop :=
  0 <= channel c <= 15 /\
  0 <= controller c <= 127 /\
  1 <= min (range c) <= 3000 /\
  (min (range c) <= max (range c) <= 3000 \/ max (range c) = 500) /\
  (max (range c) <= detect (range c) < 65536 \/ detect (range c) = 600).

Section Imports.
Context `{JsonConvert}.

(** A sequence of imports, the first document first. *)
Definition imports (docs : list JsonObject) (c : Config) : Config :=
  fold_left (fun c json => importConfiguration json c) docs c.

End Imports.

(** ** What a run shows on each endpoint *)

Definition dispatches (out : list Effect) : list (Source * Packet) :=
  flat_map (fun e => match e with Dispatch from p => [(from, p)] | _ => [] end) out.

(** Two states that differ in the packet buffers only, the port of the
    sensor's buffer apart. *)
Definition same_observable (st1 st2 : State) : Prop :=
  config st1 = config st2 /\
  usb_connected st1 = usb_connected st2 /\
  port (range_midi st1) = port (range_midi st2).

(** What one event contributes to the socket, to the plug and to the
    dispatcher of the local device. *)
Definition to_socket (e : Event) : list Packet :=
  match e with
  | UsbReceive p =>
      if getPort p =? 0 then [] else [setPort p (getPort p - 1)]
  | _ => []
  end.

Definition sensor_packet (c : Config) (prt s : Z) : Packet :=
  {| port := prt;
     message := ControlChange (wrap8 (channel c)) (wrap8 (controller c))
                  (wrap8 s) |}.

Definition to_plug (c : Config) (prt : Z) (e : Event) : list Packet :=
  match e with
  | SensorUpdate s _ _ _ => [sensor_packet c prt s]
  | _ => []
  end.

Definition to_dispatcher (e : Event) : list (Source * Packet) :=
  match e with
  | UsbReceive p => if getPort p =? 0 then [(FromUsb, p)] else []
  | PlugReceive packet =>
      match ltype packet with
      | TypeMIDI => [(FromPlug, midi packet)]
      | TypeOther => []
      end
  | _ => []
  end.

(** The events that can reach the USB endpoint: sensor readings, socket
    packets, and the changes of the connection that gate them. *)
Definition upward (e : Event) : bool :=
  match e with
  | UsbReceive _ | PlugReceive _ => false
  | SocketReceive _ | SensorUpdate _ _ _ _ | UsbConnection _ => true
  end.

(** * Properties *)

(** ** Members of a JSON object *)


Lemma member_absent (key : string) (o : JsonObject) :
  has_member key o = false -> member key o = JNull.
Proof.
  induction o as [ | [k v] rest IH]; simpl; [ reflexivity | ].
  destruct (String.eqb k key); simpl; [ discriminate | exact IH ].
Qed.

Lemma member_set_same (key : string) (v : Json) (o : JsonObject) :
  member key (set_member key v o) = v.
Proof.
  induction o as [ | [k w] rest IH]; simpl.
  - now rewrite String.eqb_refl.
  - destruct (String.eqb k key) eqn:E; simpl; rewrite E; [ reflexivity | exact IH ].
Qed.

Lemma member_set_other (key other : string) (v : Json) (o : JsonObject) :
  String.eqb other key = false ->
  member key (set_member other v o) = member key o.
Proof.
  intros Hne.
  induction o as [ | [k w] rest IH]; simpl.
  - now rewrite Hne.
  - destruct (String.eqb k other) eqn:E; simpl.
    + apply String.eqb_eq in E. subst k. now rewrite Hne.
    + now rewrite IH.
Qed.

(** ** The validation of the range block on raw [uint16_t] readings *)

Lemma range_min_bounds (raw : Z) : 1 <= range_min raw <= 3000 \/ raw < 0.
Proof.
  unfold range_min.
  destruct (Z.eqb_spec raw 0); destruct (Z.gtb_spec raw 3000); simpl; lia.
Qed.

Lemma range_max_cases (lo raw : Z) :
  (range_max lo raw = raw /\ lo <= raw <= 3000) \/ range_max lo raw = 500.
Proof.
  unfold range_max.
  destruct (Z.ltb_spec raw lo); destruct (Z.gtb_spec raw 3000); simpl; lia.
Qed.

Lemma range_detect_cases (hi raw : Z) :
  (range_detect hi raw = raw /\ hi <= raw) \/ range_detect hi raw = 600.
Proof.
  unfold range_detect.
  destruct (Z.ltb_spec raw hi); destruct (Z.gtb_spec hi 3000); simpl; lia.
Qed.

Lemma range_min_accepts (raw : Z) :
  1 <= raw <= 3000 -> range_min raw = raw.
Proof.
  intros Hr. unfold range_min.
  destruct (Z.eqb_spec raw 0); destruct (Z.gtb_spec raw 3000); simpl; lia.
Qed.

Lemma range_max_accepts (lo raw : Z) :
  lo <= raw <= 3000 -> range_max lo raw = raw.
Proof.
  intros Hr. unfold range_max.
  destruct (Z.ltb_spec raw lo); destruct (Z.gtb_spec raw 3000); simpl; lia.
Qed.

Lemma range_detect_accepts (hi raw : Z) :
  hi <= raw /\ hi <= 3000 -> range_detect hi raw = raw.
Proof.
  intros Hr. unfold range_detect.
  destruct (Z.ltb_spec raw hi); destruct (Z.gtb_spec hi 3000); simpl; lia.
Qed.

(** ** Import: the range block *)

Section ImportFacts.
Context `{JsonConvert}.

Lemma import_range_block (json json_range : JsonObject) (c : Config) :
  as_object (member "range" json) = Some json_range ->
  range (importConfiguration json c) =
    let lo := range_min (as_uint16 (member "min" json_range)) in
    let hi := range_max lo (as_uint16 (member "max" json_range)) in
    {| n_steps := n_steps (range c);
       min := lo;
       max := hi;
       detect := range_detect hi (as_uint16 (member "detect" json_range));
       alpha := alpha (range c);
       lag := lag (range c) |}.
Proof.
  intros Hr. unfold importConfiguration, import_range. rewrite Hr. simpl.
  assert (Hkeep : range (import_controller json (import_channel json c)) = range c).
  { unfold import_controller, import_channel.
    repeat match goal with
           | |- context [match ?x with _ => _ end] => destruct x; simpl
           end; reflexivity. }
  now rewrite Hkeep.
Qed.

Lemma import_without_range (json : JsonObject) (c : Config) :
  as_object (member "range" json) = None ->
  range (importConfiguration json c) = range c.
Proof.
  intros Hr. unfold importConfiguration, import_range. rewrite Hr.
  unfold import_controller, import_channel.
  repeat match goal with
         | |- context [match ?x with _ => _ end] => destruct x; simpl
         end; reflexivity.
Qed.

Lemma range_document_block (lo hi lim : Z) :
  as_object (member "range" (range_document lo hi lim)) =
    Some [("min", JInt lo); ("max", JInt hi); ("detect", JInt lim)].
Proof. reflexivity. Qed.


(** C5: the import scenario of the specification. *)
Theorem import_scenario (c : Config) :
  let json :=
    [("midi", JObj [("channel", JInt 5)]);
     ("controller", JInt 200);
     ("range", JObj [("min", JInt 0); ("max", JInt 4000); ("detect", JInt 50)])] in
  let c' := importConfiguration json c in
  channel c' = 4 /\ controller c' = 127 /\
  min (range c') = 10 /\ max (range c') = 500 /\ detect (range c') = 600.
Proof.
  cbv zeta.
  unfold importConfiguration, import_range, import_controller, import_channel.
  cbn [member as_object String.eqb Ascii.eqb Bool.eqb isNull negb].
  rewrite !as_uint8_int by (unfold is_uint8; lia).
  rewrite !as_uint16_int by (unfold is_uint16; lia).
  repeat split.
Qed.

(** C7: a [detect] above 3000 is stored as it is; the second operand of
    the check repeats the test of [max]. *)
Theorem import_detect_above_limit (c : Config) :
  detect (range (importConfiguration (range_document 10 500 5000) c)) = 5000.
Proof.
  rewrite (import_range_block _ _ c (range_document_block 10 500 5000)).
  cbn [member String.eqb Ascii.eqb Bool.eqb detect].
  rewrite !as_uint16_int by (unfold is_uint16; lia).
  reflexivity.
Qed.

(** C10: inside a range block an absent [min], [max] or [detect] reads
    as zero and is stored as its default, whatever the prior value. *)
Theorem import_absent_range_field (json json_range : JsonObject) (c : Config) :
  as_object (member "range" json) = Some json_range ->
  let c' := importConfiguration json c in
  (has_member "min" json_range = false ->
     as_uint16 (member "min" json_range) = 0 /\ min (range c') = 10) /\
  (has_member "max" json_range = false ->
     as_uint16 (member "max" json_range) = 0 /\ max (range c') = 500) /\
  (has_member "detect" json_range = false ->
     as_uint16 (member "detect" json_range) = 0 /\ detect (range c') = 600).
Proof.
  intros Hr c'. subst c'.
  rewrite (import_range_block json json_range c Hr). cbn [min max detect].
  pose proof (as_uint16_range (member "min" json_range)) as Hmin.
  pose proof (as_uint16_range (member "max" json_range)) as Hmax.
  destruct (range_min_bounds (as_uint16 (member "min" json_range)))
    as [Hlo | Hneg]; [ | unfold is_uint16 in Hmin; lia ].
  split; [ | split ]; intros Habs;
    (split; [ rewrite (member_absent _ _ Habs); apply as_uint16_null | ]).
  - now rewrite (member_absent _ _ Habs), as_uint16_null.
  - rewrite (member_absent "max" _ Habs), as_uint16_null.
    unfold range_max.
    destruct (Z.ltb_spec 0 (range_min (as_uint16 (member "min" json_range))));
      [ reflexivity | lia ].
  - rewrite (member_absent "detect" _ Habs), as_uint16_null.
    set (hi := range_max _ _).
    assert (1 <= hi).
    { subst hi.
      destruct (range_max_cases
                  (range_min (as_uint16 (member "min" json_range)))
                  (as_uint16 (member "max" json_range))) as [[-> ?] | ->]; lia. }
    unfold range_detect.
    destruct (Z.ltb_spec 0 hi); [ reflexivity | lia ].
Qed.

End ImportFacts.

Lemma import_scenario_witness :
  let json :=
    [("midi", JObj [("channel", JInt 5)]);
     ("controller", JInt 200);
     ("range", JObj [("min", JInt 0); ("max", JInt 4000); ("detect", JInt 50)])] in
  let c' := @importConfiguration arduinojson json default_config in
  channel c' = 4 /\ controller c' = 127 /\
  min (range c') = 10 /\ max (range c') = 500 /\ detect (range c') = 600.
Proof. exact (@import_scenario arduinojson default_config). Defined.



Lemma import_absent_range_field_witness :
  let json := [("range", JObj [("max", JInt 200)])] in
  let c' := @importConfiguration arduinojson json default_config in
  as_object (member "range" json) = Some [("max", JInt 200)] /\
  min (range c') = 10 /\ max (range c') = 200 /\ detect (range c') = 600.
Proof.
  cbv zeta.
  pose proof (@import_absent_range_field arduinojson
                [("range", JObj [("max", JInt 200)])] [("max", JInt 200)]
                default_config eq_refl) as [Hmin [_ Hdetect]].
  split; [ reflexivity | ].
  split; [ exact (proj2 (Hmin eq_refl)) | ].
  split; [ reflexivity | exact (proj2 (Hdetect eq_refl)) ].
Defined.

(** ** Export followed by import *)


Section RoundTrip.
Context `{JsonConvert}.

Lemma export_midi (c : Config) (json : JsonObject) :
  member "midi" (exportConfiguration c json) =
    JObj [("#channel", JStr "The channel to send notes and control values to");
          ("channel", JInt (channel c + 1))].
Proof.
  unfold exportConfiguration, createNestedObject.
  rewrite !member_set_other by reflexivity.
  now rewrite member_set_same.
Qed.

Lemma export_controller (c : Config) (json : JsonObject) :
  member "controller" (exportConfiguration c json) = JInt (controller c).
Proof.
  unfold exportConfiguration, createNestedObject.
  rewrite !member_set_other by reflexivity.
  now rewrite member_set_same.
Qed.

Lemma export_range (c : Config) (json : JsonObject) :
  exists json_range,
    member "range" (exportConfiguration c json) = JObj json_range /\
    member "min" json_range = JInt (min (range c)) /\
    member "max" json_range = JInt (max (range c)) /\
    member "detect" json_range = JInt (detect (range c)).
Proof.
  unfold exportConfiguration, createNestedObject.
  rewrite member_set_same.
  eexists. split; [ reflexivity | ]. repeat split.
Qed.

Lemma import_export_fields (c prior : Config) (json : JsonObject) :
  valid_config c ->
  let c' := importConfiguration (exportConfiguration c json) prior in
  channel c' = channel c /\
  controller c' = controller c /\
  range c' =
    {| n_steps := n_steps (range prior);
       min := min (range c); max := max (range c); detect := detect (range c);
       alpha := alpha (range prior); lag := lag (range prior) |}.
Proof.
  intros (Hch & Hctl & Hmin & Hmax & Hdet & Hord) c'. subst c'.
  destruct (export_range c json) as (json_range & Hr & Emin & Emax & Edet).
  assert (Hobj : as_object (member "range" (exportConfiguration c json)) =
                 Some json_range) by now rewrite Hr.
  split; [ | split ].
  - unfold importConfiguration, import_range. rewrite Hobj.
    unfold import_controller, import_channel.
    rewrite export_midi, export_controller.
    cbn [as_object member String.eqb Ascii.eqb Bool.eqb isNull negb].
    rewrite !as_uint8_int by (unfold is_uint8; lia).
    cbn [set_controller controller].
    destruct (Z.gtb_spec (controller c) 127); [ lia | ].
    destruct (Z.ltb_spec (channel c + 1) 1); [ lia | ].
    destruct (Z.gtb_spec (channel c + 1) 16); [ lia | ].
    cbn [set_range set_controller set_channel channel]. unfold wrap8.
    rewrite Z.mod_small by lia. lia.
  - unfold importConfiguration, import_range. rewrite Hobj.
    unfold import_controller.
    rewrite export_controller.
    cbn [isNull negb].
    rewrite !as_uint8_int by (unfold is_uint8; lia).
    cbn [set_controller controller].
    destruct (Z.gtb_spec (controller c) 127); [ lia | ].
    reflexivity.
  - rewrite (import_range_block _ json_range prior Hobj).
    rewrite Emin, Emax, Edet.
    rewrite !as_uint16_int by (unfold is_uint16; lia).
    cbv zeta.
    rewrite range_min_accepts by lia.
    rewrite range_max_accepts by lia.
    rewrite range_detect_accepts by lia.
    reflexivity.
Qed.

(** C6: for a configuration within the validated bounds, importing the
    exported document restores channel, controller, [min], [max] and
    [detect], whatever configuration the import starts from; started
    from the exported configuration itself it gives that configuration
    back. *)
Theorem import_export_round_trip (c prior : Config) (json : JsonObject) :
  valid_config c ->
  let c' := importConfiguration (exportConfiguration c json) prior in
  (channel c' = channel c /\
   controller c' = controller c /\
   min (range c') = min (range c) /\
   max (range c') = max (range c) /\
   detect (range c') = detect (range c)) /\
  importConfiguration (exportConfiguration c json) c = c.
Proof.
  intros Hv c'. subst c'.
  destruct (import_export_fields c prior json Hv) as (Hch & Hctl & Hr).
  split.
  - rewrite Hch, Hctl, Hr. repeat split.
  - destruct (import_export_fields c c json Hv) as (Hch' & Hctl' & Hr').
    destruct (importConfiguration (exportConfiguration c json) c)
      as [ch ctl r].
    destruct c as [ch0 ctl0 [n lo hi lim a l]].
    cbn in Hch', Hctl', Hr'. now subst.
Qed.

End RoundTrip.

Lemma import_export_round_trip_witness :
  valid_config default_config /\
  @importConfiguration arduinojson (exportConfiguration default_config [])
    default_config = default_config.
Proof.
  assert (Hv : valid_config default_config) by (vm_compute; intuition discriminate).
  split; [ exact Hv | ].
  exact (proj2 (@import_export_round_trip arduinojson default_config
                  default_config [] Hv)).
Defined.

(** ** Routing *)


Lemma port_field_small (x : Z) : 0 <= x <= 15 -> Z.land (wrap8 x) 15 = x.
Proof.
  intros Hx. unfold wrap8. rewrite (Z.mod_small x 256) by lia.
  change 15 with (Z.ones 4). rewrite Z.land_ones by lia.
  apply Z.mod_small. change (2 ^ 4) with 16. lia.
Qed.

Lemma getPort_setPort (p : Packet) (x : Z) :
  0 <= x <= 15 -> getPort (setPort p x) = x.
Proof. intros Hx. unfold getPort, setPort. cbn [port]. now apply port_field_small. Qed.

Lemma packet_ext (p q : Packet) :
  getPort p = getPort q -> message p = message q -> p = q.
Proof. destruct p, q. unfold getPort. cbn. now intros -> ->. Qed.

Lemma hop_down_forward (dev : State) (p : Packet) :
  getPort p <> 0 -> hop_down dev p = Some (setPort p (getPort p - 1)).
Proof.
  intros Hp. unfold hop_down, MIDI_loop.
  destruct (Z.eqb_spec (getPort p) 0); [ contradiction | reflexivity ].
Qed.

Lemma hop_up_forward (dev : State) (p : Packet) :
  connected dev -> getPort p <> 15 ->
  hop_up dev p = Some (setPort p (getPort p + 1)).
Proof.
  intros Hc Hp. unfold hop_up, receiveSocket. cbn [ltype address midi].
  destruct (Z.eqb_spec (getPort p) 15); [ contradiction | ].
  now rewrite Hc.
Qed.

Lemma relay_down (devices : list State) (p : Packet) :
  Z.of_nat (List.length devices) <= getPort p <= 15 ->
  exists q, relay hop_down devices p = Some q /\
            getPort q = getPort p - Z.of_nat (List.length devices) /\
            message q = message p.
Proof.
  revert p. induction devices as [ | dev rest IH]; intros p Hp.
  - exists p. cbn. repeat split. lia.
  - cbn [List.length] in Hp. rewrite Nat2Z.inj_succ in Hp.
    cbn [relay]. rewrite hop_down_forward by lia.
    destruct (IH (setPort p (getPort p - 1))) as (q & Hq & Hport & Hmsg).
    { rewrite getPort_setPort by lia. lia. }
    exists q. rewrite getPort_setPort in Hport by lia.
    cbn [List.length]. rewrite Nat2Z.inj_succ. repeat split; [ exact Hq | lia | exact Hmsg ].
Qed.

Lemma relay_up (devices : list State) (q : Packet) :
  Forall connected devices ->
  0 <= getPort q /\ getPort q + Z.of_nat (List.length devices) <= 15 ->
  exists r, relay hop_up devices q = Some r /\
            getPort r = getPort q + Z.of_nat (List.length devices) /\
            message r = message q.
Proof.
  intros Hc. revert q. induction Hc as [ | dev rest Hdev Hrest IH]; intros q Hq.
  - exists q. cbn. repeat split. lia.
  - cbn [List.length] in Hq. rewrite Nat2Z.inj_succ in Hq.
    cbn [relay]. rewrite hop_up_forward by (assumption || lia).
    destruct (IH (setPort q (getPort q + 1))) as (r & Hr & Hport & Hmsg).
    { rewrite getPort_setPort by lia. lia. }
    exists r. rewrite getPort_setPort in Hport by lia.
    cbn [List.length]. rewrite Nat2Z.inj_succ. repeat split; [ exact Hr | lia | exact Hmsg ].
Qed.

(** C2: a packet with port N that is relayed down through K devices, each
    applying the decrement of [MIDI::loop], leaves the last one with port
    N - K; bubbled back up through the same K devices, each applying the
    increment of [receiveSocket], it is the packet that entered, port N
    included (0 <= K <= N <= 14). *)
Theorem port_round_trip (N : Z) (devices : list State) (p : Packet) :
  let K := Z.of_nat (List.length devices) in
  0 <= K <= N /\ N <= 14 ->
  getPort p = N ->
  Forall connected devices ->
  exists q,
    relay hop_down devices p = Some q /\
    getPort q = N - K /\
    relay hop_up (rev devices) q = Some p.
Proof.
  intros K [HK HN] Hp Hc. subst K.
  destruct (relay_down devices p) as (q & Hq & Hport & Hmsg); [ lia | ].
  destruct (relay_up (rev devices) q) as (r & Hr & Hport' & Hmsg').
  { now apply Forall_rev. }
  { rewrite length_rev. lia. }
  exists q. repeat split; [ exact Hq | lia | ].
  rewrite Hr. f_equal. apply packet_ext; [ | congruence ].
  rewrite length_rev in Hport'. lia.
Qed.

Lemma port_round_trip_witness :
  let p := {| port := 5; message := ControlChange 0 16 42 |} in
  let devices := [set_usb_connected initial_state true;
                  set_usb_connected initial_state true;
                  set_usb_connected initial_state true] in
  exists q,
    relay hop_down devices p = Some q /\
    getPort q = 5 - 3 /\
    relay hop_up (rev devices) q = Some p.
Proof.
  cbv zeta.
  apply (port_round_trip 5
           [set_usb_connected initial_state true;
            set_usb_connected initial_state true;
            set_usb_connected initial_state true]
           {| port := 5; message := ControlChange 0 16 42 |}).
  - cbn. lia.
  - reflexivity.
  - repeat constructor.
Defined.

(** C8: a packet from the USB endpoint with port 0 goes to the dispatcher
    of the local device; one with a port above 0 goes to the socket with
    the port one lower and the message as it came. *)
Theorem usb_packet_routing (st : State) (p : Packet) :
  0 <= getPort p <= 15 ->
  (getPort p = 0 ->
     snd (MIDI_loop st (Some p)) = [Dispatch FromUsb p]) /\
  (0 < getPort p ->
     exists q, snd (MIDI_loop st (Some p)) = [SocketSend q] /\
               getPort q = getPort p - 1 /\
               message q = message p).
Proof.
  intros Hp. unfold MIDI_loop. split; intros Hport.
  - rewrite Hport. reflexivity.
  - destruct (Z.eqb_spec (getPort p) 0); [ lia | ].
    eexists. split; [ reflexivity | ].
    split; [ apply getPort_setPort; lia | reflexivity ].
Qed.

Lemma usb_packet_routing_witness :
  let p := {| port := 3; message := ControlChange 0 16 42 |} in
  snd (MIDI_loop initial_state (Some p)) =
    [SocketSend {| port := 2; message := ControlChange 0 16 42 |}].
Proof.
  cbv zeta.
  destruct (usb_packet_routing initial_state
              {| port := 3; message := ControlChange 0 16 42 |})
    as [_ Hfwd]; [ cbn; lia | ].
  destruct Hfwd as (q & Hout & Hport & Hmsg); [ cbn; lia | ].
  rewrite Hout. f_equal. f_equal. apply packet_ext; [ exact Hport | exact Hmsg ].
Defined.

(** ** Traces *)

Lemma run_app (st : State) (pre post : list Event) :
  run st (pre ++ post) =
    (fst (run (fst (run st pre)) post),
     snd (run st pre) ++ snd (run (fst (run st pre)) post)).
Proof.
  revert st. induction pre as [ | e pre IH]; intros st; cbn [run app fst snd].
  - now destruct (run st post).
  - destruct (step st e) as [st1 out1]. rewrite IH.
    destruct (run st1 pre) as [st2 out2]. cbn [fst snd].
    now rewrite app_assoc.
Qed.

Lemma run_skip (st : State) (pre post : list Event) (e : Event) :
  step (fst (run st pre)) e = (fst (run st pre), []) ->
  run st (pre ++ e :: post) = run st (pre ++ post).
Proof.
  intros Hstep. rewrite !run_app. cbn [run]. rewrite Hstep.
  now destruct (run (fst (run st pre)) post).
Qed.

(** C3: a packet from the socket with address 0xF changes nothing and
    sends nothing, in every state, connected or not; a run with such a
    packet in it is the run without it. *)
Theorem socket_terminator_dropped (packet : LinkPacket) :
  address packet = 15 ->
  (forall st, receiveSocket st packet = (st, [])) /\
  (forall st pre post,
     run st (pre ++ SocketReceive packet :: post) = run st (pre ++ post)).
Proof.
  intros Ha.
  assert (Hdrop : forall st, receiveSocket st packet = (st, [])).
  { intros st. unfold receiveSocket. rewrite Ha.
    now destruct (ltype packet). }
  split; [ exact Hdrop | ].
  intros st pre post. apply run_skip. cbn [step]. apply Hdrop.
Qed.

Lemma socket_terminator_dropped_witness :
  let packet := {| ltype := TypeMIDI; address := 15;
                   midi := {| port := 0; message := ControlChange 0 16 42 |} |} in
  receiveSocket (set_usb_connected initial_state true) packet =
    (set_usb_connected initial_state true, []) /\
  run initial_state [UsbConnection true; SocketReceive packet; UsbConnection false] =
    run initial_state [UsbConnection true; UsbConnection false].
Proof.
  cbv zeta.
  destruct (socket_terminator_dropped
              {| ltype := TypeMIDI; address := 15;
                 midi := {| port := 0; message := ControlChange 0 16 42 |} |}
              eq_refl) as [Hdrop Hrun].
  split; [ apply Hdrop | ].
  exact (Hrun initial_state [UsbConnection true] [UsbConnection false]).
Defined.

(** C4: while the USB connection is down, a packet from the socket
    changes nothing and sends nothing; whatever follows, a reconnection
    included, the run is the run without that packet. *)
Theorem socket_dropped_while_disconnected
    (st : State) (pre post : list Event) (packet : LinkPacket) :
  usb_connected (fst (run st pre)) = false ->
  step (fst (run st pre)) (SocketReceive packet) = (fst (run st pre), []) /\
  run st (pre ++ SocketReceive packet :: post) = run st (pre ++ post).
Proof.
  intros Hdown.
  assert (Hdrop : step (fst (run st pre)) (SocketReceive packet) =
                  (fst (run st pre), [])).
  { cbn [step]. unfold receiveSocket. rewrite Hdown.
    destruct (ltype packet); [ | reflexivity ].
    now destruct (address packet =? 15). }
  split; [ exact Hdrop | now apply run_skip ].
Qed.

Lemma socket_dropped_while_disconnected_witness :
  let child := {| port := 0; message := ControlChange 0 16 42 |} in
  let packet := {| ltype := TypeMIDI; address := 0; midi := child |} in
  usb_sends (snd (run initial_state
    [UsbConnection false; SocketReceive packet; UsbConnection true])) = [] /\
  usb_sends (snd (run initial_state
    [UsbConnection true; SocketReceive packet])) =
    [{| port := 1; message := ControlChange 0 16 42 |}].
Proof.
  cbv zeta. split; [ | reflexivity ].
  pose proof (socket_dropped_while_disconnected initial_state
                [UsbConnection false] [UsbConnection true]
                {| ltype := TypeMIDI; address := 0;
                   midi := {| port := 0; message := ControlChange 0 16 42 |} |}
                eq_refl) as [_ Hrun].
  cbn [app] in Hrun. rewrite Hrun. reflexivity.
Defined.

(** C9: [handleSend] passes the packet to the USB endpoint and to the
    plug; a sensor reading goes out through it, so its control change
    reaches both. *)
Theorem local_events_reach_usb_and_plug :
  (forall midi, handleSend midi = (true, [UsbSend midi; PlugSend midi])) /\
  (forall st s fraction distance count,
     let out := snd (handleUpdate st s fraction distance count) in
     exists midi,
       message midi =
         ControlChange (wrap8 (channel (config st)))
                       (wrap8 (controller (config st))) (wrap8 s) /\
       usb_sends out = [midi] /\
       plug_sends out = [midi]).
Proof.
  split; [ reflexivity | ].
  intros st s fraction distance count out. subst out.
  exists (setControlChange (range_midi st)
            (channel (config st)) (controller (config st)) s).
  repeat split.
Qed.

(** ** Import: every block on its own *)

Lemma config_ext (c d : Config) :
  channel c = channel d -> controller c = controller d -> range c = range d ->
  c = d.
Proof. destruct c, d. cbn. now intros -> -> ->. Qed.

Lemma range_max_default (lo : Z) : range_max lo 500 = 500.
Proof. unfold range_max. now destruct ((500 <? lo) || (500 >? 3000)). Qed.

Lemma range_detect_default (hi : Z) : range_detect hi 600 = 600.
Proof. unfold range_detect. now destruct ((600 <? hi) || (hi >? 3000)). Qed.

Section ImportBlocks.
Context `{JsonConvert}.

(** The value [import_channel] stores for a raw [uint8_t] reading. *)
Lemma import_channel_value (json json_midi : JsonObject) (c : Config) :
  as_object (member "midi" json) = Some json_midi ->
  isNull (member "channel" json_midi) = false ->
  channel (importConfiguration json c) =
    Z.max 1 (Z.min 16 (as_uint8 (member "channel" json_midi))) - 1.
Proof.
  intros Hm Hc.
  assert (Hkeep : forall d, channel (import_range json (import_controller json d)) =
                            channel d).
  { intros d. unfold import_range, import_controller.
    repeat match goal with
           | |- context [match ?x with _ => _ end] => destruct x; cbn
           end; reflexivity. }
  unfold importConfiguration. rewrite Hkeep.
  unfold import_channel. rewrite Hm, Hc. cbn [negb].
  pose proof (as_uint8_range (member "channel" json_midi)) as Hr.
  unfold is_uint8 in Hr.
  set (raw := as_uint8 (member "channel" json_midi)) in *.
  destruct (Z.ltb_spec raw 1); [ cbn; lia | ].
  destruct (Z.gtb_spec raw 16); cbn; [ lia | ].
  unfold wrap8. rewrite Z.mod_small by lia. lia.
Qed.

Lemma import_channel_kept (json : JsonObject) (c : Config) :
  (forall json_midi, as_object (member "midi" json) = Some json_midi ->
                     isNull (member "channel" json_midi) = true) ->
  channel (importConfiguration json c) = channel c.
Proof.
  intros Hm.
  unfold importConfiguration, import_range, import_controller, import_channel.
  destruct (as_object (member "midi" json)) as [json_midi | ].
  - rewrite (Hm json_midi eq_refl). cbn [negb].
    repeat match goal with
           | |- context [match ?x with _ => _ end] => destruct x; cbn
           end; reflexivity.
  - repeat match goal with
           | |- context [match ?x with _ => _ end] => destruct x; cbn
           end; reflexivity.
Qed.

Lemma import_controller_value (json : JsonObject) (c : Config) :
  isNull (member "controller" json) = false ->
  controller (importConfiguration json c) =
    Z.min 127 (as_uint8 (member "controller" json)).
Proof.
  intros Hc.
  unfold importConfiguration.
  assert (Hkeep : forall d, controller (import_range json d) = controller d).
  { intros d. unfold import_range.
    now destruct (as_object (member "range" json)). }
  rewrite Hkeep. unfold import_controller. rewrite Hc. cbn [negb].
  cbn [set_controller controller].
  destruct (Z.gtb_spec (as_uint8 (member "controller" json)) 127); cbn; lia.
Qed.

Lemma import_controller_kept (json : JsonObject) (c : Config) :
  isNull (member "controller" json) = true ->
  controller (importConfiguration json c) = controller c.
Proof.
  intros Hc.
  unfold importConfiguration, import_range, import_controller, import_channel.
  rewrite Hc. cbn [negb].
  repeat match goal with
         | |- context [match ?x with _ => _ end] => destruct x; cbn
         end; reflexivity.
Qed.

Lemma import_channel_cases (json : JsonObject) (c : Config) :
  channel (importConfiguration json c) = channel c \/
  0 <= channel (importConfiguration json c) <= 15.
Proof.
  destruct (as_object (member "midi" json)) as [json_midi | ] eqn:Hm.
  - destruct (isNull (member "channel" json_midi)) eqn:Hc.
    + left. apply import_channel_kept. intros m Hm'.
      rewrite Hm in Hm'. now injection Hm' as <-.
    + right. rewrite (import_channel_value json json_midi c Hm Hc). lia.
  - left. apply import_channel_kept. intros m Hm'. congruence.
Qed.

Lemma import_controller_cases (json : JsonObject) (c : Config) :
  controller (importConfiguration json c) = controller c \/
  0 <= controller (importConfiguration json c) <= 127.
Proof.
  destruct (isNull (member "controller" json)) eqn:Hc.
  - left. now apply import_controller_kept.
  - right. rewrite (import_controller_value json c Hc).
    pose proof (as_uint8_range (member "controller" json)) as Hr.
    unfold is_uint8 in Hr. lia.
Qed.

Lemma import_range_bounds (json json_range : JsonObject) (c : Config) :
  as_object (member "range" json) = Some json_range ->
  let r := range (importConfiguration json c) in
  1 <= min r <= 3000 /\
  (min r <= max r <= 3000 \/ max r = 500) /\
  (max r <= detect r < 65536 \/ detect r = 600).
Proof.
  intros Hr r. subst r.
  rewrite (import_range_block json json_range c Hr). cbn [min max detect].
  pose proof (as_uint16_range (member "min" json_range)) as Hmin.
  pose proof (as_uint16_range (member "detect" json_range)) as Hdet.
  unfold is_uint16 in Hmin, Hdet.
  set (rmin := as_uint16 (member "min" json_range)) in *.
  set (rmax := as_uint16 (member "max" json_range)).
  set (rdet := as_uint16 (member "detect" json_range)) in *.
  destruct (range_min_bounds rmin) as [Hlo | Hneg]; [ | lia ].
  split; [ exact Hlo | ].
  split.
  - destruct (range_max_cases (range_min rmin) rmax) as [[Hhi Hin] | Hhi];
      [ left; rewrite Hhi; lia | right; exact Hhi ].
  - destruct (range_detect_cases (range_max (range_min rmin) rmax) rdet)
      as [[Hd Hge] | Hd]; [ left; rewrite Hd; lia | right; exact Hd ].
Qed.

Lemma import_stable_step (json : JsonObject) (c : Config) :
  import_stable c -> import_stable (importConfiguration json c).
Proof.
  intros (Hch & Hctl & Hmin & Hmax & Hdet).
  unfold import_stable.
  split; [ destruct (import_channel_cases json c) as [-> | ?]; assumption | ].
  split; [ destruct (import_controller_cases json c) as [-> | ?]; assumption | ].
  destruct (as_object (member "range" json)) as [json_range | ] eqn:Hr.
  - exact (import_range_bounds json json_range c Hr).
  - rewrite (import_without_range json c Hr). auto.
Qed.

Lemma import_keeps_tuning_aux (json : JsonObject) (c : Config) :
  n_steps (range (importConfiguration json c)) = n_steps (range c) /\
  alpha (range (importConfiguration json c)) = alpha (range c) /\
  lag (range (importConfiguration json c)) = lag (range c).
Proof.
  destruct (as_object (member "range" json)) as [json_range | ] eqn:Hr.
  - rewrite (import_range_block json json_range c Hr). repeat split.
  - rewrite (import_without_range json c Hr). repeat split.
Qed.

(** X1: importing the same document a second time changes nothing. *)
Theorem import_idempotent (json : JsonObject) (c : Config) :
  importConfiguration json (importConfiguration json c) =
    importConfiguration json c.
Proof.
  apply config_ext.
  - destruct (as_object (member "midi" json)) as [json_midi | ] eqn:Hm.
    + destruct (isNull (member "channel" json_midi)) eqn:Hc.
      * apply import_channel_kept. intros m Hm'.
        rewrite Hm in Hm'. now injection Hm' as <-.
      * now rewrite !(import_channel_value json json_midi _ Hm Hc).
    + apply import_channel_kept. intros m Hm'. congruence.
  - destruct (isNull (member "controller" json)) eqn:Hc.
    + now apply import_controller_kept.
    + now rewrite !(import_controller_value json _ Hc).
  - destruct (as_object (member "range" json)) as [json_range | ] eqn:Hr.
    + rewrite !(import_range_block json json_range _ Hr). reflexivity.
    + now rewrite (import_without_range json _ Hr).
Qed.

(** X2: a block that is missing, null or not an object leaves its part
    of the configuration as it was: the channel without a [midi] object
    or without a [channel] in it, the controller without [controller],
    the range without a [range] object. *)
Theorem import_missing_block_keeps (json : JsonObject) (c : Config) :
  ((forall json_midi, as_object (member "midi" json) = Some json_midi ->
                      isNull (member "channel" json_midi) = true) ->
   channel (importConfiguration json c) = channel c) /\
  (isNull (member "controller" json) = true ->
   controller (importConfiguration json c) = controller c) /\
  (as_object (member "range" json) = None ->
   range (importConfiguration json c) = range c).
Proof.
  split; [ apply import_channel_kept | ].
  split; [ apply import_controller_kept | apply import_without_range ].
Qed.

(** X3: a block that is present is validated whatever the prior
    configuration was: the channel lands in 0..15, the controller in
    0..127, [min] and [max] in 1..3000 and [detect] in 1..65535. *)
Theorem import_present_block_bounds (json : JsonObject) (c : Config) :
  let c' := importConfiguration json c in
  (forall json_midi, as_object (member "midi" json) = Some json_midi ->
                     isNull (member "channel" json_midi) = false ->
                     0 <= channel c' <= 15) /\
  (isNull (member "controller" json) = false -> 0 <= controller c' <= 127) /\
  (as_object (member "range" json) <> None ->
   1 <= min (range c') <= 3000 /\
   1 <= max (range c') <= 3000 /\
   1 <= detect (range c') <= 65535).
Proof.
  intros c'. subst c'. split; [ | split ].
  - intros json_midi Hm Hc.
    rewrite (import_channel_value json json_midi c Hm Hc). lia.
  - intros Hc. rewrite (import_controller_value json c Hc).
    pose proof (as_uint8_range (member "controller" json)) as Hr.
    unfold is_uint8 in Hr. lia.
  - intros Hr.
    destruct (as_object (member "range" json)) as [json_range | ] eqn:Hobj;
      [ | congruence ].
    pose proof (import_range_bounds json json_range c Hobj) as Hb.
    cbv zeta in Hb. lia.
Qed.

(** X4: the channel of the document is clamped to 1..16 and stored
    zero-based; the controller is capped at 127. *)
Theorem import_clamps (json json_midi : JsonObject) (c : Config) (ch ctl : Z) :
  is_uint8 ch -> is_uint8 ctl ->
  as_object (member "midi" json) = Some json_midi ->
  member "channel" json_midi = JInt ch ->
  member "controller" json = JInt ctl ->
  channel (importConfiguration json c) = Z.max 1 (Z.min 16 ch) - 1 /\
  controller (importConfiguration json c) = Z.min 127 ctl.
Proof.
  intros Hch Hctl Hm Ech Ectl. split.
  - rewrite (import_channel_value json json_midi c Hm) by now rewrite Ech.
    now rewrite Ech, as_uint8_int.
  - rewrite (import_controller_value json c) by now rewrite Ectl.
    now rewrite Ectl, as_uint8_int.
Qed.

(** X5: no import touches the step count or the filter coefficients of
    the sensor. *)
Theorem import_keeps_sensor_tuning (json : JsonObject) (c : Config) :
  let r := range (importConfiguration json c) in
  n_steps r = n_steps (range c) /\
  alpha r = alpha (range c) /\
  lag r = lag (range c).
Proof.
  intros r. subst r. apply import_keeps_tuning_aux.
Qed.

(** X6: starting from a configuration the validation could have stored,
    every sequence of imports ends in one again. *)
Theorem imports_stable (docs : list JsonObject) (c : Config) :
  import_stable c -> import_stable (imports docs c).
Proof.
  revert c. unfold imports.
  induction docs as [ | json docs IH]; intros c Hc; cbn [fold_left].
  - exact Hc.
  - apply IH. now apply import_stable_step.
Qed.

(** X8: a document with a channel, a controller and a range block
    decides these values alone: the prior configuration shows in the
    result only through the step count and the filter coefficients. *)
Theorem import_complete_document (json json_midi : JsonObject) (c d : Config) :
  as_object (member "midi" json) = Some json_midi ->
  isNull (member "channel" json_midi) = false ->
  isNull (member "controller" json) = false ->
  as_object (member "range" json) <> None ->
  let c' := importConfiguration json c in
  let d' := importConfiguration json d in
  channel c' = channel d' /\
  controller c' = controller d' /\
  min (range c') = min (range d') /\
  max (range c') = max (range d') /\
  detect (range c') = detect (range d').
Proof.
  intros Hm Hch Hctl Hr c' d'. subst c' d'.
  destruct (as_object (member "range" json)) as [json_range | ] eqn:Hobj;
    [ | congruence ].
  rewrite !(import_channel_value json json_midi _ Hm Hch).
  rewrite !(import_controller_value json _ Hctl).
  rewrite !(import_range_block json json_range _ Hobj).
  repeat split.
Qed.

End ImportBlocks.

(** ** Export *)

Lemma has_member_set (key other : string) (v : Json) (o : JsonObject) :
  has_member key (set_member other v o) =
    String.eqb other key || has_member key o.
Proof.
  unfold has_member.
  induction o as [ | [k w] rest IH]; cbn [set_member existsb fst].
  - reflexivity.
  - destruct (String.eqb k other) eqn:E; cbn [existsb fst].
    + apply String.eqb_eq in E. subst k.
      now destruct (String.eqb other key).
    + rewrite IH.
      now destruct (String.eqb k key), (String.eqb other key).
Qed.

Lemma set_member_present (key : string) (v : Json) (o : JsonObject) :
  has_member key o = true -> member key o = v -> set_member key v o = o.
Proof.
  unfold has_member.
  induction o as [ | [k w] rest IH]; cbn [set_member member existsb fst].
  - discriminate.
  - destruct (String.eqb k key) eqn:E; cbn [orb].
    + now intros _ ->.
    + intros Hhas Hv. f_equal. now apply IH.
Qed.

Ltac export_member :=
  unfold exportConfiguration, createNestedObject;
  rewrite ?member_set_other by reflexivity;
  rewrite ?member_set_same; reflexivity.

Lemma export_written (c : Config) (json : JsonObject) (key : string) :
  has_member key (exportConfiguration c []) = true ->
  has_member key (exportConfiguration c json) = true /\
  member key (exportConfiguration c json) = member key (exportConfiguration c []).
Proof.
  intros Hk.
  assert (Hkeys : key = "#midi" \/ key = "midi" \/ key = "#controller" \/
                  key = "controller" \/ key = "#range" \/ key = "range").
  { unfold exportConfiguration, createNestedObject in Hk.
    rewrite !has_member_set in Hk. cbn [has_member existsb] in Hk.
    repeat match type of Hk with
           | context [String.eqb ?a key] =>
               destruct (String.eqb_spec a key); [ subst; tauto | ]
           end.
    discriminate. }
  split.
  - unfold exportConfiguration, createNestedObject. rewrite !has_member_set.
    repeat (destruct Hkeys as [-> | Hkeys]; [ reflexivity | ]).
    now subst.
  - repeat (destruct Hkeys as [-> | Hkeys]; [ export_member | ]).
    subst. export_member.
Qed.


Section ExportFacts.
Context `{JsonConvert}.

Lemma import_export_stable_fields (c prior : Config) (json : JsonObject) :
  import_stable c ->
  let c' := importConfiguration (exportConfiguration c json) prior in
  channel c' = channel c /\
  controller c' = controller c /\
  min (range c') = min (range c) /\
  max (range c') = max (range c) /\
  detect (range c') = detect (range c).
Proof.
  intros (Hch & Hctl & Hmin & Hmax & Hdet) c'. subst c'.
  destruct (export_range c json) as (json_range & Hr & Emin & Emax & Edet).
  assert (Hobj : as_object (member "range" (exportConfiguration c json)) =
                 Some json_range) by now rewrite Hr.
  split; [ | split ].
  - erewrite import_channel_value;
      [ | rewrite export_midi; reflexivity | reflexivity ].
    cbn [member String.eqb Ascii.eqb Bool.eqb].
    rewrite as_uint8_int by (unfold is_uint8; lia). lia.
  - rewrite import_controller_value by now rewrite export_controller.
    rewrite export_controller, as_uint8_int by (unfold is_uint8; lia). lia.
  - rewrite (import_range_block _ json_range prior Hobj).
    cbv zeta. cbn [min max detect].
    rewrite Emin, Emax, Edet.
    assert (Hmax' : 1 <= max (range c) <= 3000) by lia.
    rewrite !as_uint16_int by (unfold is_uint16; lia).
    rewrite range_min_accepts by lia.
    assert (Emax' : range_max (min (range c)) (max (range c)) = max (range c)).
    { destruct Hmax as [Hin | ->];
        [ now apply range_max_accepts | apply range_max_default ]. }
    rewrite Emax'.
    assert (Edet' : range_detect (max (range c)) (detect (range c)) =
                    detect (range c)).
    { destruct Hdet as [Hin | ->];
        [ apply range_detect_accepts; lia | apply range_detect_default ]. }
    rewrite Edet'. repeat split.
Qed.

(** X7: every configuration the validation could have stored survives
    export followed by import: channel, controller, [min], [max] and
    [detect] come back as they were, a replaced [max] or [detect] and a
    [detect] above 3000 included. *)
Theorem import_export_stable (c prior : Config) (json : JsonObject) :
  import_stable c ->
  let c' := importConfiguration (exportConfiguration c json) prior in
  (channel c' = channel c /\
   controller c' = controller c /\
   min (range c') = min (range c) /\
   max (range c') = max (range c) /\
   detect (range c') = detect (range c)) /\
  importConfiguration (exportConfiguration c json) c = c.
Proof.
  intros Hs c'. subst c'.
  split; [ exact (import_export_stable_fields c prior json Hs) | ].
  destruct (import_export_stable_fields c c json Hs)
    as (Hch & Hctl & Hmin & Hmax & Hdet).
  pose proof (import_keeps_tuning_aux (exportConfiguration c json) c)
    as (Hn & Ha & Hl).
  apply config_ext; [ exact Hch | exact Hctl | ].
  destruct (range (importConfiguration (exportConfiguration c json) c)).
  destruct (range c). cbn in *. now subst.
Qed.

End ExportFacts.


(** X10: exporting twice into the same document gives the document of
    the first export: no member is duplicated or moved. *)
Theorem export_idempotent (c : Config) (json : JsonObject) :
  exportConfiguration c (exportConfiguration c json) =
    exportConfiguration c json.
Proof.
  remember (exportConfiguration c json) as E eqn:HE.
  assert (Hfix : forall key v,
             has_member key (exportConfiguration c []) = true ->
             member key (exportConfiguration c []) = v ->
             set_member key v E = E).
  { intros key v Hk Hv. subst E.
    destruct (export_written c json key Hk) as [Hhas Hmem].
    apply set_member_present; [ exact Hhas | now rewrite Hmem ]. }
  unfold exportConfiguration, createNestedObject.
  repeat rewrite Hfix by reflexivity.
  reflexivity.
Qed.

Section ExportConsistency.
Context `{JsonConvert}.

(** X11: [exportSettings] appends one entry and keeps the entries that
    were there; the path and field the entry names are those of the
    member in which [exportConfiguration] writes the channel and from
    which [importConfiguration] reads it. *)
Theorem exportSettings_names_channel (json : JsonArray) :
  exists entry path field,
    exportSettings json = json ++ [JObj entry] /\
    member "configuration" entry =
      JObj [("path", JStr path); ("field", JStr field)] /\
    (forall c doc, exists json_midi,
        member path (exportConfiguration c doc) = JObj json_midi /\
        member field json_midi = JInt (channel c + 1)) /\
    (forall c n, 1 <= n <= 16 ->
        channel (importConfiguration [(path, JObj [(field, JInt n)])] c) = n - 1).
Proof.
  eexists. exists "midi", "channel".
  split; [ reflexivity | ].
  split; [ reflexivity | ].
  split.
  - intros c doc. eexists. split; [ apply export_midi | reflexivity ].
  - intros c n Hn.
    erewrite import_channel_value; [ | reflexivity | reflexivity ].
    cbn [member String.eqb Ascii.eqb Bool.eqb].
    rewrite as_uint8_int by (unfold is_uint8; lia). lia.
Qed.

End ExportConsistency.

(** X12: [exportOutput] announces the channel and the controller number
    that the control changes of the sensor carry. *)
Theorem exportOutput_matches_sensor (st : State) (json : JsonObject)
    (s : Z) (fraction distance : Q) (count : Z) :
  is_uint8 (channel (config st)) ->
  is_uint8 (controller (config st)) ->
  exists ch number,
    member "channel" (exportOutput (config st) json) = JInt ch /\
    member "controllers" (exportOutput (config st) json) =
      JArr [JObj [("name", JStr "Proximity"); ("number", JInt number)]] /\
    forall midi,
      In (UsbSend midi) (snd (handleUpdate st s fraction distance count)) ->
      message midi = ControlChange ch number (wrap8 s).
Proof.
  intros Hch Hctl.
  exists (channel (config st)), (controller (config st)).
  unfold exportOutput, createNestedArray, addNestedObject.
  split; [ now rewrite member_set_other, member_set_same by reflexivity | ].
  split; [ now rewrite member_set_same | ].
  intros midi Hin. cbn in Hin.
  destruct Hin as [Hin | [Hin | [Hin | []]]]; try discriminate Hin.
  injection Hin as <-. cbn [setControlChange message].
  unfold wrap8, is_uint8 in *. now rewrite !Z.mod_small by lia.
Qed.

Lemma exportOutput_matches_sensor_witness :
  exists ch number,
    member "channel" (exportOutput default_config []) = JInt ch /\
    member "controllers" (exportOutput default_config []) =
      JArr [JObj [("name", JStr "Proximity"); ("number", JInt number)]] /\
    forall midi,
      In (UsbSend midi) (snd (handleUpdate initial_state 42 (1 # 3) 150 1)) ->
      message midi = ControlChange ch number (wrap8 42).
Proof.
  apply (exportOutput_matches_sensor initial_state [] 42 (1 # 3) 150 1);
    vm_compute; split; congruence.
Defined.

Lemma import_clamps_witness :
  let json := [("midi", JObj [("channel", JInt 40)]); ("controller", JInt 200)] in
  channel (@importConfiguration arduinojson json default_config) = 15 /\
  controller (@importConfiguration arduinojson json default_config) = 127.
Proof.
  cbv zeta.
  apply (@import_clamps arduinojson
           [("midi", JObj [("channel", JInt 40)]); ("controller", JInt 200)]
           [("channel", JInt 40)] default_config 40 200);
    solve [ reflexivity | unfold is_uint8; lia ].
Defined.

Lemma import_complete_document_witness :
  let json :=
    [("midi", JObj [("channel", JInt 5)]);
     ("controller", JInt 20);
     ("range", JObj [("min", JInt 50); ("max", JInt 900)])] in
  let c' := @importConfiguration arduinojson json default_config in
  let d' := @importConfiguration arduinojson json
              (set_range (set_channel default_config 9) 1 2 3) in
  channel c' = channel d' /\
  controller c' = controller d' /\
  min (range c') = min (range d') /\
  max (range c') = max (range d') /\
  detect (range c') = detect (range d').
Proof.
  cbv zeta.
  apply (@import_complete_document arduinojson _ [("channel", JInt 5)]);
    solve [ reflexivity | discriminate ].
Defined.

Lemma imports_stable_witness :
  import_stable
    (@imports arduinojson
       [range_document 600 100 50; [("controller", JInt 200)]] default_config).
Proof.
  apply (@imports_stable arduinojson).
  unfold import_stable, default_config, GeneralPurpose1.
  cbn [channel controller range min max detect]. lia.
Defined.

Lemma import_export_stable_witness :
  let c := set_range default_config 600 500 5000 in
  @importConfiguration arduinojson (range_document 600 100 5000) default_config
    = c /\
  @importConfiguration arduinojson (exportConfiguration c []) c = c.
Proof.
  cbv zeta. split; [ reflexivity | ].
  assert (Hs : import_stable (set_range default_config 600 500 5000)).
  { unfold import_stable, set_range, default_config, GeneralPurpose1.
    cbn [channel controller range min max detect]. lia. }
  exact (proj2 (@import_export_stable arduinojson
                  (set_range default_config 600 500 5000) default_config [] Hs)).
Defined.

(** ** Runs: what reaches each endpoint *)

Lemma run_cons (st : State) (e : Event) (rest : list Event) :
  run st (e :: rest) =
    (fst (run (fst (step st e)) rest),
     snd (step st e) ++ snd (run (fst (step st e)) rest)).
Proof.
  cbn [run]. destruct (step st e) as [st1 out1]. cbn [fst snd].
  now destruct (run st1 rest).
Qed.

Lemma step_same_observable (st1 st2 : State) (e : Event) :
  same_observable st1 st2 ->
  snd (step st1 e) = snd (step st2 e) /\
  same_observable (fst (step st1 e)) (fst (step st2 e)).
Proof.
  intros (Hc & Hu & Hp). unfold same_observable.
  destruct e as [p | packet | packet | s fraction distance count | up];
    cbn [step].
  - unfold MIDI_loop. destruct (getPort p =? 0); cbn; repeat split; auto.
  - unfold receivePlug. destruct (ltype packet); cbn; repeat split; auto.
  - unfold receiveSocket. cbv zeta. rewrite Hu.
    destruct (ltype packet), (address packet =? 15),
      (usb_connected st2) eqn:Hu2; cbn; repeat split; congruence.
  - unfold handleUpdate, setControlChange. cbn. rewrite Hc, Hp. repeat split; auto.
  - cbn. auto.
Qed.

Lemma step_not_upward (st : State) (e : Event) :
  upward e = false ->
  usb_sends (snd (step st e)) = [] /\ same_observable (fst (step st e)) st.
Proof.
  unfold same_observable.
  destruct e as [p | packet | packet | s fraction distance count | up];
    cbn [upward step]; try discriminate; intros _.
  - unfold MIDI_loop. destruct (getPort p =? 0); cbn; repeat split; auto.
  - unfold receivePlug. destruct (ltype packet); cbn; repeat split; auto.
Qed.

Lemma step_keeps_sensor_source (st : State) (e : Event) :
  config (fst (step st e)) = config st /\
  port (range_midi (fst (step st e))) = port (range_midi st).
Proof.
  destruct e as [p | packet | packet | s fraction distance count | up];
    cbn [step].
  - unfold MIDI_loop. destruct (getPort p =? 0); cbn; repeat split; auto.
  - unfold receivePlug. destruct (ltype packet); cbn; repeat split; auto.
  - unfold receiveSocket. cbv zeta.
    destruct (ltype packet), (address packet =? 15), (usb_connected st);
      cbn; repeat split; auto.
  - cbn. auto.
  - cbn. auto.
Qed.

(** X13: the packet buffers carry nothing from one event to the next:
    two states with the same configuration, the same connection state
    and the same port in the sensor's buffer produce the same effects on
    every sequence of events. *)
Theorem run_ignores_buffers (st1 st2 : State) (events : list Event) :
  same_observable st1 st2 ->
  snd (run st1 events) = snd (run st2 events).
Proof.
  revert st1 st2. induction events as [ | e rest IH]; intros st1 st2 Hs.
  - reflexivity.
  - rewrite !run_cons. cbn [snd].
    destruct (step_same_observable st1 st2 e Hs) as [Hout Hnext].
    now rewrite Hout, (IH _ _ Hnext).
Qed.

Lemma run_ignores_buffers_witness :
  let stale := {| port := 7; message := Raw [240; 1; 2] |} in
  let events :=
    [UsbConnection true;
     SocketReceive {| ltype := TypeMIDI; address := 2; midi := stale |};
     SensorUpdate 42 (1 # 3) 150 1] in
  snd (run (set_link_midi (set_usb_midi initial_state stale) stale) events) =
    snd (run initial_state events).
Proof.
  cbv zeta. apply run_ignores_buffers. repeat split.
Defined.

(** X14: in every run the socket receives exactly the USB packets with
    a port other than 0, in their order, each with its port one lower;
    nothing that arrives on the plug or the socket and no sensor reading
    is sent downstream. *)
Theorem run_socket_sends (st : State) (events : list Event) :
  socket_sends (snd (run st events)) = flat_map to_socket events.
Proof.
  revert st. induction events as [ | e rest IH]; intros st.
  - reflexivity.
  - rewrite run_cons. cbn [snd flat_map].
    unfold socket_sends in *. rewrite flat_map_app, IH. f_equal.
    destruct e as [p | packet | packet | s fraction distance count | up];
      cbn [step to_socket].
    + unfold MIDI_loop. now destruct (getPort p =? 0).
    + unfold receivePlug. now destruct (ltype packet).
    + unfold receiveSocket. cbv zeta.
      destruct (ltype packet); [ | reflexivity ].
      destruct (address packet =? 15); [ reflexivity | ].
      now destruct (usb_connected st).
    + reflexivity.
    + reflexivity.
Qed.

(** X15: in every run the plug receives exactly one control change per
    sensor reading, with the channel and controller of the configuration
    and the reading as its value; no packet from the USB endpoint, the
    plug or the socket is passed on to the plug. *)
Theorem run_plug_sends (st : State) (events : list Event) :
  plug_sends (snd (run st events)) =
    flat_map (to_plug (config st) (port (range_midi st))) events.
Proof.
  revert st. induction events as [ | e rest IH]; intros st.
  - reflexivity.
  - rewrite run_cons. cbn [snd flat_map].
    unfold plug_sends in *. rewrite flat_map_app, IH.
    destruct (step_keeps_sensor_source st e) as [-> ->]. f_equal.
    destruct e as [p | packet | packet | s fraction distance count | up];
      cbn [step to_plug].
    + unfold MIDI_loop. now destruct (getPort p =? 0).
    + unfold receivePlug. now destruct (ltype packet).
    + unfold receiveSocket. cbv zeta.
      destruct (ltype packet); [ | reflexivity ].
      destruct (address packet =? 15); [ reflexivity | ].
      now destruct (usb_connected st).
    + reflexivity.
    + reflexivity.
Qed.

(** X16: in every run the dispatcher of the local device receives
    exactly the USB packets with port 0 and the MIDI packets from the
    plug, each as it arrived; a packet from the socket is never
    dispatched locally. *)
Theorem run_dispatches (st : State) (events : list Event) :
  dispatches (snd (run st events)) = flat_map to_dispatcher events.
Proof.
  revert st. induction events as [ | e rest IH]; intros st.
  - reflexivity.
  - rewrite run_cons. cbn [snd flat_map].
    unfold dispatches in *. rewrite flat_map_app, IH. f_equal.
    destruct e as [p | packet | packet | s fraction distance count | up];
      cbn [step to_dispatcher].
    + unfold MIDI_loop. now destruct (getPort p =? 0).
    + unfold receivePlug. now destruct (ltype packet).
    + unfold receiveSocket. cbv zeta.
      destruct (ltype packet); [ | reflexivity ].
      destruct (address packet =? 15); [ reflexivity | ].
      now destruct (usb_connected st).
    + reflexivity.
    + reflexivity.
Qed.

(** X17: nothing that arrives from the USB endpoint or from the plug
    is sent to the USB endpoint: the packets a run sends there are those
    of the same run with these events taken out. *)
Theorem run_usb_sends_no_echo (st : State) (events : list Event) :
  usb_sends (snd (run st events)) =
    usb_sends (snd (run st (filter upward events))).
Proof.
  assert (Hgen : forall evs st1 st2, same_observable st1 st2 ->
            usb_sends (snd (run st1 evs)) =
              usb_sends (snd (run st2 (filter upward evs)))).
  { induction evs as [ | e rest IH]; intros st1 st2 Hs; [ reflexivity | ].
    rewrite run_cons. cbn [snd filter]. unfold usb_sends in *.
    rewrite flat_map_app.
    destruct (upward e) eqn:Hup.
    - rewrite run_cons. cbn [snd]. rewrite flat_map_app.
      destruct (step_same_observable st1 st2 e Hs) as [Hout Hnext].
      now rewrite Hout, (IH _ _ Hnext).
    - destruct (step_not_upward st1 e Hup) as [Hnone (Hc & Hu & Hp)].
      unfold usb_sends in Hnone. rewrite Hnone. cbn [app].
      apply IH. destruct Hs as (Hc' & Hu' & Hp').
      unfold same_observable. repeat split; congruence. }
  apply Hgen. repeat split.
Qed.

(** X18: with the USB connection up, a MIDI packet from the socket with
    an address in 0..14 goes to the USB endpoint with port address + 1
    and its message unchanged, so never with port 0, the port of the
    local device. *)
Theorem socket_packet_forwarded (st : State) (packet : LinkPacket) :
  usb_connected st = true ->
  ltype packet = TypeMIDI ->
  0 <= address packet <= 14 ->
  exists q,
    snd (receiveSocket st packet) = [UsbSend q] /\
    getPort q = address packet + 1 /\
    getPort q <> 0 /\
    message q = message (midi packet).
Proof.
  intros Hup Hty Ha. unfold receiveSocket. cbv zeta. rewrite Hty, Hup.
  destruct (Z.eqb_spec (address packet) 15); [ lia | ].
  eexists. split; [ reflexivity | ].
  rewrite getPort_setPort by lia. repeat split; lia.
Qed.

Lemma socket_packet_forwarded_witness :
  exists q,
    snd (receiveSocket (set_usb_connected initial_state true)
           {| ltype := TypeMIDI; address := 14;
              midi := {| port := 0; message := ControlChange 0 16 42 |} |}) =
      [UsbSend q] /\
    getPort q = 14 + 1 /\
    getPort q <> 0 /\
    message q = ControlChange 0 16 42.
Proof.
  apply (socket_packet_forwarded (set_usb_connected initial_state true)
           {| ltype := TypeMIDI; address := 14;
              midi := {| port := 0; message := ControlChange 0 16 42 |} |});
    cbn; solve [ reflexivity | lia ].
Defined.
